(** * pm-app/app/ui/form.tsx: field context, prop resolution and the field
    elements built on it.

    The components of form.tsx are stateless render functions.  Each one is
    embedded as a function from its props object, its forwarded ref and the
    ambient field context (the value [useFieldContext] returns: the nearest
    provider's value, or [null]) to the element it renders. *)

From stdpp Require Import gmap strings pretty list fin_maps.

Local Open Scope string_scope.

#[local] Set Warnings "-register-all".

(** ** The fragment of JavaScript the file relies on *)

Module JS.

(** Values that reach the components: primitives, and objects that the code
    never looks into (React elements, refs, style objects), known only by
    their reference.  Numbers are the integral ones. *)
Inductive value : Type :=
  | VUndefined
  | VNull
  | VBool (b : bool)
  | VNum (n : Z)
  | VStr (s : string)
  | VObject (ref : nat).

#[global] Instance value_eq_dec : EqDecision value.
Proof. solve_decision. Defined.

#[global] Instance value_inhabited : Inhabited value := populate VUndefined.

(** A plain object: its own enumerable string keys.  A key may be present
    with the value [undefined], which is different from an absent key as far
    as spreading is concerned. *)
Abbreviation obj := (gmap string value).

(** [o[k]] and [o.k]: a missing key reads as [undefined]. *)
Definition get (o : obj) (k : string) : value := default VUndefined (o !! k).

(** [o?.k] on a value that is an object or [null]. *)
Definition opt_get (o : option obj) (k : string) : value :=
  match o with
  | Some o' => get o' k
  | None => VUndefined
  end.

(** ToBoolean. *)
Definition truthy (v : value) : bool :=
  match v with
  | VUndefined | VNull => false
  | VBool b => b
  | VNum n => negb (n =? 0)%Z
  | VStr s => negb (bool_decide (s = ""))
  | VObject _ => true
  end.

(** [v == null]. *)
Definition nullish (v : value) : bool :=
  match v with
  | VUndefined | VNull => true
  | _ => false
  end.

(** [a || b]. *)
Definition or_else (a b : value) : value := if truthy a then a else b.

(** [a ?? b]. *)
Definition coalesce (a b : value) : value := if nullish a then b else a.

(** [a === b]: by value on primitives, by reference on objects. *)
Definition strict_eq (a b : value) : bool := bool_decide (a = b).

(** ToString, as applied by a template literal. *)
Definition to_string (v : value) : string :=
  match v with
  | VUndefined => "undefined"
  | VNull => "null"
  | VBool true => "true"
  | VBool false => "false"
  | VNum n => pretty n
  | VStr s => s
  | VObject _ => "[object Object]"
  end.

(** [{...a, ...b}]: the keys of [b] win, also those holding [undefined]. *)
Definition spread (a b : obj) : obj := b ∪ a.

(** [const {k, ...rest} = o]: the rest object. *)
Definition omit (k : string) (o : obj) : obj := delete k o.

(** [const {k = d} = o]: a destructuring default applies to [undefined]
    only. *)
Definition get_default (o : obj) (k : string) (d : value) : value :=
  match get o k with
  | VUndefined => d
  | v => v
  end.

(** The attributes of a JSX element, in source order: [k={v}] or
    [{...o}]. *)
Inductive jsx_attr : Type :=
  | Attr (k : string) (v : value)
  | Spread (o : obj).

(** The props object a JSX element is created with: attributes are applied
    left to right, so a later one overrides an earlier one. *)
Definition jsx_apply (acc : obj) (a : jsx_attr) : obj :=
  match a with
  | Attr k v => <[k := v]> acc
  | Spread o => spread acc o
  end.

Definition jsx_props (attrs : list jsx_attr) : obj :=
  fold_left jsx_apply attrs ∅.

(** What a render function returns: a value (text, [null], an opaque child)
    or an element with its props and children. *)
Inductive node : Type :=
  | NVal (v : value)
  | NElem (tag : string) (props : obj) (children : list node).

Definition node_props (n : node) : obj :=
  match n with
  | NElem _ p _ => p
  | NVal _ => ∅
  end.

Definition node_children (n : node) : list node :=
  match n with
  | NElem _ _ c => c
  | NVal _ => []
  end.

Definition node_tag (n : node) : option string :=
  match n with
  | NElem t _ _ => Some t
  | NVal _ => None
  end.

End JS.

Export JS.

(** ** clsx *)

(** An argument of [cx]: a value, or an object literal of conditional
    classes (its keys in source order). *)
Inductive class_arg : Type :=
  | CVal (v : value)
  | CDict (d : list (string * value)).

(** [str && (str += ' '); str += x] *)
Definition sep_append (str x : string) : string :=
  if bool_decide (str = "") then x else str +:+ " " +:+ x.

(** Modelled from the spec: the class-name composition utility [cx] is the
    imported [clsx], whose code is not part of form.tsx.  It joins, with
    single spaces, the string and number arguments that are truthy and the
    keys of object arguments whose value is truthy.  [toVal] is what one
    argument contributes. *)
Definition toVal (mix : class_arg) : string :=
  match mix with
  | CVal (VStr s) => s
  | CVal (VNum n) => pretty n
  | CVal _ => ""
  | CDict d =>
      fold_left (fun str kv => if truthy kv.2 then sep_append str kv.1 else str)
        d ""
  end.

Definition class_arg_truthy (a : class_arg) : bool :=
  match a with
  | CVal v => truthy v
  | CDict _ => true
  end.

(** Modelled from the spec: one turn of the loop of the imported [clsx]
    over its arguments; a falsy argument and an argument that contributes
    nothing are skipped. *)
Definition cx_step (str : string) (a : class_arg) : string :=
  if class_arg_truthy a
  then let x := toVal a in
       if bool_decide (x = "") then str else sep_append str x
  else str.

(** Modelled from the spec: [cx], the default export of the imported
    [clsx], which form.tsx calls for every class name. *)
Definition cx (args : list class_arg) : string := fold_left cx_step args "".

(** ** form.tsx *)

(** [interface FieldContextValue]: which keys a context may carry, and the
    values each may hold. *)
Definition FieldContextValue_field (k : string) (v : value) : bool :=
  if bool_decide (k = "name") || bool_decide (k = "id") then
    match v with VUndefined | VStr _ => true | _ => false end
  else if bool_decide (k = "invalid") then
    match v with
    | VUndefined | VBool _ => true
    | VStr s => bool_decide (s ∈ ["false"; "true"; "grammar"; "spelling"])
    | _ => false
    end
  else if bool_decide (k = "disabled") || bool_decide (k = "required") then
    match v with VUndefined | VBool _ => true | _ => false end
  else if bool_decide (k = "error") then
    match v with VUndefined | VNull | VStr _ => true | _ => false end
  else false.

Definition FieldContextValue (c : obj) : Prop :=
  map_Forall (fun k v => FieldContextValue_field k v = true) c.

#[global] Instance FieldContextValue_dec c : Decision (FieldContextValue c).
Proof. unfold FieldContextValue. apply _. Defined.

(** The context type of [createContext<FieldContextValue | null>]. *)
Definition FieldContext (context : option obj) : Prop :=
  match context with
  | Some c => FieldContextValue c
  | None => True
  end.

(** The keys of [Record<`aria-${string}`, any>]. *)
Definition is_aria (k : string) : bool := String.prefix "aria-" k.

(** [FieldProvider]: the context it publishes is the rest of its props,
    [({ children, className, ...ctx }, ref)]. *)
Definition FieldProvider_ctx (props : obj) : obj :=
  omit "children" (omit "className" props).

Definition FieldProvider (props : obj) (ref : value) (children : list node)
  : node :=
  NElem "div"
    (jsx_props
       [Attr "ref" ref;
        Attr "className"
          (VStr (cx [CVal (get props "className");
                     CVal (VStr "ui--form-field-wrapper")]))])
    children.

(** The [ariaProps] object of [getResolvedFieldProps]. *)
Definition ariaProps (context props : obj) : obj :=
  if truthy (get context "error") && truthy (get context "id") then
    let invalid := coalesce (get props "aria-invalid") (get context "invalid") in
    <["aria-invalid" :=
        if strict_eq invalid (VStr "false") then VBool false
        else coalesce invalid (VBool true)]>
      (<["aria-describedby" :=
           if negb (nullish (get props "aria-describedby"))
           then VStr (to_string (get props "aria-describedby") +:+ " "
                      +:+ to_string (get context "id") +:+ "-error")
           else VStr (to_string (get context "id") +:+ "-error")]> ∅)
  else ∅.

Definition getResolvedFieldProps (context : option obj) (props : obj) : obj :=
  match context with
  | None => props
  | Some context =>
      let rest := omit "error" context in
      spread (spread rest props) (ariaProps context props)
  end.

Definition Field (props : obj) (ref : value) (context : option obj) : node :=
  let resolvedProps := getResolvedFieldProps context props in
  NElem "input"
    (jsx_props
       [Attr "type" (VStr "text");
        Attr "ref" ref;
        Spread resolvedProps;
        Attr "className"
          (VStr (cx [CVal (get props "className");
                     CVal (VStr "ui--form-field")]))])
    [].

Definition Select (props : obj) (ref : value) (context : option obj) : node :=
  let resolvedProps := getResolvedFieldProps context props in
  NElem "select"
    (jsx_props
       [Attr "ref" ref;
        Spread resolvedProps;
        Attr "className"
          (VStr (cx [CVal (get props "className");
                     CVal (VStr "ui--form-field");
                     CVal (VStr "ui--form-field--select")]))])
    [].

Definition Textarea (props : obj) (ref : value) (context : option obj) : node :=
  let resolved := getResolvedFieldProps context props in
  let resize := get_default resolved "resize" (VStr "y") in
  let resolvedProps := omit "resize" resolved in
  NElem "textarea"
    (jsx_props
       [Attr "ref" ref;
        Spread resolvedProps;
        Attr "className"
          (VStr (cx [CVal (get props "className");
                     CVal (VStr "ui--form-field");
                     CVal (VStr "ui--form-field--textarea");
                     CDict
                       [("resize-xy", VBool (strict_eq resize (VBool true)));
                        ("resize-x", VBool (strict_eq resize (VStr "x")));
                        ("resize-y", VBool (strict_eq resize (VStr "y")))]]))])
    [].

Definition Label (props : obj) (ref : value) (ctx : option obj) : node :=
  let className := get props "className" in
  let children := get props "children" in
  let domProps := omit "children" (omit "className" props) in
  NElem "label"
    (jsx_props
       [Attr "htmlFor" (or_else (opt_get ctx "id") (get props "htmlFor"));
        Attr "ref" ref;
        Spread domProps;
        Attr "className"
          (VStr (cx [CVal className; CVal (VStr "ui--form-label")]))])
    [NVal children;
     if truthy (opt_get ctx "required")
     then NElem "span" (jsx_props [Attr "className" (VStr "sr-only")])
            [NVal (VStr " (Required)")]
     else NVal VNull].

Definition FieldError (props : obj) (ref : value) (context : option obj)
  : node :=
  let className := get props "className" in
  let id := get props "id" in
  let children := get props "children" in
  let domProps := omit "children" (omit "id" (omit "className" props)) in
  let error := or_else children (opt_get context "error") in
  let idToUse :=
    if match context with
       | Some c => truthy (get c "id")
       | None => false
       end
    then VStr (to_string (opt_get context "id") +:+ "-error")
    else id in
  if negb (truthy error) then NVal VNull
  else
    NElem "div"
      (jsx_props
         [Attr "ref" ref;
          Attr "className"
            (VStr (cx [CVal className; CVal (VStr "ui--form-field-error")]));
          Attr "role" (VStr "alert");
          Attr "id" idToUse;
          Spread domProps])
      [NVal error].

(** ** The resolver as the specification words it *)

(** The specification's reading of [aria-invalid]: the first of the explicit
    prop, the context's [invalid] and [true] that is there, with the string
    ["false"] turned into the boolean. *)
Definition aria_invalid_by_priority (explicit ctx_invalid : value) : value :=
  let resolved := coalesce explicit (coalesce ctx_invalid (VBool true)) in
  if strict_eq resolved (VStr "false") then VBool false else resolved.

(** The specification's reading of the merge: the context without [error]
    and [invalid], overlaid with the explicit props. *)
Definition merge_without_error_invalid (C props : obj) : obj :=
  spread (omit "invalid" (omit "error" C)) props.

(** The specification's table of resize classes; [undefined] stands for an
    unspecified option. *)
Definition resize_class (resize : value) : option string :=
  match resize with
  | VUndefined => Some "resize-y"
  | VBool true => Some "resize-xy"
  | VStr s =>
      if bool_decide (s = "x") then Some "resize-x"
      else if bool_decide (s = "y") then Some "resize-y"
      else None
  | _ => None
  end.

(** ** Sample inputs *)

Definition ctx_f1 : obj := {[ "id" := VStr "f1" ]}.

Definition ctx_f1_invalid : obj :=
  {[ "id" := VStr "f1"; "invalid" := VBool true ]}.

Definition ctx_f1_required : obj :=
  {[ "id" := VStr "f1"; "error" := VStr "Required" ]}.

Definition ctx_f1_string_false : obj :=
  {[ "id" := VStr "f1"; "error" := VStr "Required";
     "invalid" := VStr "false" ]}.

Definition props_hint : obj := {[ "aria-describedby" := VStr "hint" ]}.

Definition props_resize_true : obj := {[ "resize" := VBool true ]}.

Definition props_htmlFor_other : obj := {[ "htmlFor" := VStr "other" ]}.

Definition props_message : obj := {[ "children" := VStr "Too short" ]}.

Definition props_message_status : obj :=
  {[ "children" := VStr "Too short"; "role" := VStr "status" ]}.

Definition ctx_group : obj :=
  {[ "id" := VStr "email"; "name" := VStr "email";
     "required" := VBool true; "error" := VStr "Required" ]}.

Definition props_own_id : obj :=
  {[ "id" := VStr "own"; "placeholder" := VStr "you@example.com" ]}.

Definition props_placeholder : obj :=
  {[ "placeholder" := VStr "you@example.com" ]}.

Definition props_class : obj := {[ "className" := VStr "wide" ]}.

Definition props_error_alert : obj :=
  {[ "id" := VStr "own"; "alert" := VBool true;
     "children" := VStr "Too short" ]}.

Definition provider_props : obj :=
  {[ "id" := VStr "email"; "name" := VStr "email";
     "className" := VStr "mb-4"; "children" := VObject 0;
     "error" := VStr "Required" ]}.

(** ** The provider and its subtree *)

(** [FieldProvider] with the subtree it wraps: the children are rendered
    under the context the provider publishes, which is what
    [useFieldContext] returns to each of them. *)
Definition FieldProvider_render (props : obj) (ref : value)
    (children : option obj → list node) : node :=
  FieldProvider props ref (children (Some (FieldProvider_ctx props))).

(** ** Reading keys of spread, rest and JSX props objects *)

Lemma lookup_spread (a b : obj) (k : string) :
  spread a b !! k = match b !! k with Some v => Some v | None => a !! k end.
Proof.
  unfold spread. rewrite lookup_union.
  destruct (b !! k), (a !! k); reflexivity.
Qed.

Lemma lookup_omit (j : string) (o : obj) (k : string) :
  omit j o !! k = if decide (j = k) then None else o !! k.
Proof. unfold omit. apply lookup_delete. Qed.

Lemma lookup_omit_eq (k : string) (o : obj) : omit k o !! k = None.
Proof. rewrite lookup_omit. case_decide; congruence. Qed.

Lemma lookup_omit_ne (j k : string) (o : obj) :
  j ≠ k → omit j o !! k = o !! k.
Proof. intros Hne. rewrite lookup_omit. case_decide; congruence. Qed.

Lemma get_lookup (o : obj) (k : string) (v : value) :
  o !! k = Some v → get o k = v.
Proof. unfold get. intros ->. reflexivity. Qed.

Lemma get_absent (o : obj) (k : string) : o !! k = None → get o k = VUndefined.
Proof. unfold get. intros ->. reflexivity. Qed.

Lemma coalesce_not_nullish (a b : value) :
  nullish b = false → nullish (coalesce a b) = false.
Proof. unfold coalesce. destruct a; simpl; auto. Qed.

(** ** The aria props *)

Lemma ariaProps_off (C props : obj) :
  truthy (get C "error") && truthy (get C "id") = false →
  ariaProps C props = ∅.
Proof. unfold ariaProps. intros ->. reflexivity. Qed.

Lemma ariaProps_other (C props : obj) (k : string) :
  k ≠ "aria-invalid" → k ≠ "aria-describedby" → ariaProps C props !! k = None.
Proof.
  intros Hi Hd. unfold ariaProps.
  destruct (truthy (get C "error") && truthy (get C "id")).
  - rewrite !lookup_insert_ne by congruence. apply lookup_empty.
  - apply lookup_empty.
Qed.

Lemma ariaProps_describedby (C props : obj) :
  truthy (get C "error") = true → truthy (get C "id") = true →
  ariaProps C props !! "aria-describedby" =
    Some (if nullish (get props "aria-describedby")
          then VStr (to_string (get C "id") +:+ "-error")
          else VStr (to_string (get props "aria-describedby") +:+ " "
                     +:+ to_string (get C "id") +:+ "-error")).
Proof.
  intros He Hi. unfold ariaProps. rewrite He, Hi. simpl.
  rewrite lookup_insert_ne by discriminate. rewrite lookup_insert_eq.
  destruct (nullish (get props "aria-describedby")); reflexivity.
Qed.

Lemma ariaProps_invalid (C props : obj) :
  truthy (get C "error") = true → truthy (get C "id") = true →
  ariaProps C props !! "aria-invalid" =
    Some (let invalid :=
            coalesce (get props "aria-invalid") (get C "invalid") in
          if strict_eq invalid (VStr "false") then VBool false
          else coalesce invalid (VBool true)).
Proof.
  intros He Hi. unfold ariaProps. rewrite He, Hi. simpl.
  apply lookup_insert_eq.
Qed.

(** The merged object, key by key: aria props first, then the explicit
    props, then the context without its [error]. *)
Lemma getResolvedFieldProps_lookup (C props : obj) (k : string) :
  getResolvedFieldProps (Some C) props !! k =
    match ariaProps C props !! k with
    | Some v => Some v
    | None =>
        match props !! k with
        | Some v => Some v
        | None => if decide ("error" = k) then None else C !! k
        end
    end.
Proof.
  unfold getResolvedFieldProps. rewrite !lookup_spread, lookup_omit.
  reflexivity.
Qed.

(** ** The declared context type *)

Lemma FieldContextValue_keys (C : obj) (k : string) (v : value) :
  FieldContextValue C → C !! k = Some v →
  k ∈ ["name"; "id"; "invalid"; "disabled"; "required"; "error"].
Proof.
  intros HC Hk. specialize (HC k v Hk). simpl in HC.
  unfold FieldContextValue_field in HC.
  repeat case_bool_decide; subst; simpl in HC;
    try discriminate; set_solver.
Qed.

Lemma FieldContextValue_no_aria (C : obj) (k : string) :
  FieldContextValue C → is_aria k = true → C !! k = None.
Proof.
  intros HC Hk. destruct (C !! k) as [v|] eqn:E; [|reflexivity].
  pose proof (FieldContextValue_keys C k v HC E) as Hin.
  repeat (apply elem_of_cons in Hin as [-> | Hin]; [discriminate Hk|]).
  by apply elem_of_nil in Hin.
Qed.

Lemma FieldContextValue_no_resize (C : obj) :
  FieldContextValue C → C !! "resize" = None.
Proof.
  intros HC. destruct (C !! "resize") as [v|] eqn:E; [|reflexivity].
  pose proof (FieldContextValue_keys C _ v HC E) as Hin.
  repeat (apply elem_of_cons in Hin as [Heq | Hin]; [discriminate Heq|]).
  by apply elem_of_nil in Hin.
Qed.

(** ** getResolvedFieldProps *)

(** C6: without an ambient context the resolver hands back the props object
    it was given, whatever that object is. *)
Theorem getResolvedFieldProps_null (props : obj) :
  getResolvedFieldProps None props = props.
Proof. reflexivity. Qed.

(** With no error to announce, the result is the context minus [error]
    overlaid with the props: [invalid] stays in. *)
Lemma getResolvedFieldProps_no_error (C props : obj) :
  truthy (get C "error") = false →
  getResolvedFieldProps (Some C) props = spread (omit "error" C) props.
Proof.
  intros He. unfold getResolvedFieldProps.
  rewrite ariaProps_off by (rewrite He; reflexivity).
  unfold spread. apply (left_id_L ∅ (∪)).
Qed.

(** A context's [invalid] reaches the merged object whenever the props do
    not carry a key of that name. *)
Lemma context_invalid_reaches_result (C props : obj) :
  props !! "invalid" = None →
  getResolvedFieldProps (Some C) props !! "invalid" = C !! "invalid".
Proof.
  intros Hp. rewrite getResolvedFieldProps_lookup.
  rewrite ariaProps_other by discriminate. rewrite Hp.
  case_decide; [discriminate | reflexivity].
Qed.

(** C1, at the input that breaks it: for the context
    [{id: "f1", invalid: true}] and empty props the merged object still has
    the raw key [invalid], so it is not the context without [error] and
    [invalid] overlaid with the props. *)
Theorem getResolvedFieldProps_forwards_invalid :
  getResolvedFieldProps (Some ctx_f1_invalid) ∅ !! "invalid"
    = Some (VBool true)
  ∧ merge_without_error_invalid ctx_f1_invalid ∅ !! "invalid" = None
  ∧ getResolvedFieldProps (Some ctx_f1_invalid) ∅
      ≠ merge_without_error_invalid ctx_f1_invalid ∅.
Proof.
  assert (H1 : getResolvedFieldProps (Some ctx_f1_invalid) ∅ !! "invalid"
               = Some (VBool true)).
  { rewrite context_invalid_reaches_result by apply lookup_empty.
    reflexivity. }
  assert (H2 : merge_without_error_invalid ctx_f1_invalid ∅ !! "invalid"
               = None).
  { unfold merge_without_error_invalid.
    rewrite lookup_spread, lookup_empty. apply lookup_omit_eq. }
  split; [exact H1|]. split; [exact H2|].
  intros Heq. rewrite Heq, H2 in H1. discriminate H1.
Qed.

(** The [aria-describedby] of the merged props when the aria props are
    derived. *)
Lemma resolved_describedby (C props : obj) :
  truthy (get C "error") = true → truthy (get C "id") = true →
  getResolvedFieldProps (Some C) props !! "aria-describedby"
  = Some (if nullish (get props "aria-describedby")
          then VStr (to_string (get C "id") +:+ "-error")
          else VStr (to_string (get props "aria-describedby") +:+ " "
                     +:+ to_string (get C "id") +:+ "-error")).
Proof.
  intros He Hi.
  by rewrite getResolvedFieldProps_lookup,
    (ariaProps_describedby C props He Hi).
Qed.

(** C3: with an error to announce and an id to derive from, the merged
    props describe the field by ["{id}-error"]: alone when the props bring
    no [aria-describedby] (absent, [undefined] or [null]), after the
    caller's value and a space otherwise.  The context's id counts as set
    when it is truthy, which is what the code tests. *)
Theorem getResolvedFieldProps_describedby (C props : obj) :
  truthy (get C "error") = true →
  truthy (get C "id") = true →
  (nullish (get props "aria-describedby") = true →
   getResolvedFieldProps (Some C) props !! "aria-describedby"
     = Some (VStr (to_string (get C "id") +:+ "-error")))
  ∧ (nullish (get props "aria-describedby") = false →
     getResolvedFieldProps (Some C) props !! "aria-describedby"
       = Some (VStr (to_string (get props "aria-describedby") +:+ " "
                     +:+ to_string (get C "id") +:+ "-error"))).
Proof.
  intros He Hi.
  split; intros Hn; rewrite (resolved_describedby C props He Hi), Hn;
    reflexivity.
Qed.

Lemma getResolvedFieldProps_describedby_witness :
  truthy (get ctx_f1_required "error") = true
  ∧ truthy (get ctx_f1_required "id") = true
  ∧ nullish (get props_hint "aria-describedby") = false
  ∧ getResolvedFieldProps (Some ctx_f1_required) props_hint
      !! "aria-describedby" = Some (VStr "hint f1-error")
  ∧ getResolvedFieldProps (Some ctx_f1_required) ∅
      !! "aria-describedby" = Some (VStr "f1-error").
Proof.
  assert (He : truthy (get ctx_f1_required "error") = true) by reflexivity.
  assert (Hi : truthy (get ctx_f1_required "id") = true) by reflexivity.
  split; [exact He|]. split; [exact Hi|]. split; [reflexivity|]. split.
  - apply (proj2 (getResolvedFieldProps_describedby
                    ctx_f1_required props_hint He Hi)).
    reflexivity.
  - apply (proj1 (getResolvedFieldProps_describedby
                    ctx_f1_required ∅ He Hi)).
    reflexivity.
Defined.

Lemma code_invalid_by_priority (explicit ctx_invalid : value) :
  (let invalid := coalesce explicit ctx_invalid in
   if strict_eq invalid (VStr "false") then VBool false
   else coalesce invalid (VBool true))
  = aria_invalid_by_priority explicit ctx_invalid.
Proof.
  unfold aria_invalid_by_priority, coalesce, strict_eq. simpl.
  destruct explicit; simpl; try reflexivity;
    destruct ctx_invalid; simpl; reflexivity.
Qed.

(** C4: with an error to announce and an id set (truthy), [aria-invalid] is
    the explicit prop if there is one, else the context's [invalid], else
    [true]; the string ["false"] from either source becomes the boolean
    [false] and every other resolved value is kept. *)
Theorem getResolvedFieldProps_invalid (C props : obj) :
  truthy (get C "error") = true →
  truthy (get C "id") = true →
  getResolvedFieldProps (Some C) props !! "aria-invalid"
    = Some (aria_invalid_by_priority (get props "aria-invalid")
              (get C "invalid")).
Proof.
  intros He Hi.
  rewrite getResolvedFieldProps_lookup, (ariaProps_invalid C props He Hi).
  f_equal. apply code_invalid_by_priority.
Qed.

Lemma getResolvedFieldProps_invalid_witness :
  truthy (get ctx_f1_string_false "error") = true
  ∧ truthy (get ctx_f1_string_false "id") = true
  ∧ getResolvedFieldProps (Some ctx_f1_string_false) ∅ !! "aria-invalid"
      = Some (VBool false).
Proof.
  split; [reflexivity|]. split; [reflexivity|].
  exact (getResolvedFieldProps_invalid ctx_f1_string_false ∅
           eq_refl eq_refl).
Defined.

(** C5: for a context of the declared type whose error is falsy or whose id
    is unset (falsy), the aria keys of the merged props are the caller's,
    value for value: none added, none changed, none dropped. *)
Theorem getResolvedFieldProps_aria_frame (C props : obj) (k : string) :
  FieldContextValue C →
  truthy (get C "error") = false ∨ truthy (get C "id") = false →
  is_aria k = true →
  getResolvedFieldProps (Some C) props !! k = props !! k.
Proof.
  intros HC Hoff Hk.
  rewrite getResolvedFieldProps_lookup.
  rewrite ariaProps_off, lookup_empty.
  - destruct (props !! k); [reflexivity|].
    case_decide; [reflexivity|].
    by apply FieldContextValue_no_aria.
  - destruct Hoff as [-> | ->]; [reflexivity | apply andb_false_r].
Qed.

Lemma getResolvedFieldProps_aria_frame_witness :
  FieldContextValue ctx_f1
  ∧ (truthy (get ctx_f1 "error") = false ∨ truthy (get ctx_f1 "id") = false)
  ∧ is_aria "aria-describedby" = true
  ∧ getResolvedFieldProps (Some ctx_f1) props_hint !! "aria-describedby"
      = props_hint !! "aria-describedby".
Proof.
  assert (HC : FieldContextValue ctx_f1).
  { apply (bool_decide_unpack _). vm_compute. exact I. }
  split; [exact HC|]. split; [left; reflexivity|]. split; [reflexivity|].
  apply (getResolvedFieldProps_aria_frame ctx_f1 props_hint _ HC);
    [left|]; reflexivity.
Defined.

(** ** Class names *)

Lemma append_nonempty_l (s t : string) : s ≠ "" → s +:+ t ≠ "".
Proof. destruct s; [congruence | discriminate]. Qed.

Lemma sep_append_nonempty (str x : string) : x ≠ "" → sep_append str x ≠ "".
Proof.
  intros Hx. unfold sep_append. case_bool_decide; [exact Hx|].
  by apply append_nonempty_l.
Qed.

Lemma sep_append_onto (str x : string) :
  str ≠ "" → sep_append str x = str +:+ " " +:+ x.
Proof. intros Hs. unfold sep_append. by rewrite bool_decide_eq_false_2. Qed.

(** A literal class name after anything else leaves a non-empty string. *)
Lemma cx_step_literal (str s : string) :
  s ≠ "" → cx_step str (CVal (VStr s)) ≠ "".
Proof.
  intros Hs. unfold cx_step. simpl.
  rewrite !bool_decide_eq_false_2 by exact Hs. simpl.
  by apply sep_append_nonempty.
Qed.

Lemma strict_eq_VStr (s t : string) :
  strict_eq (VStr s) (VStr t) = bool_decide (s = t).
Proof. unfold strict_eq. apply bool_decide_ext. split; congruence. Qed.

(** The object literal of resize classes contributes the class of the
    table, or nothing. *)
Lemma toVal_resize (resize : value) :
  resize ≠ VUndefined →
  toVal (CDict
           [("resize-xy", VBool (strict_eq resize (VBool true)));
            ("resize-x", VBool (strict_eq resize (VStr "x")));
            ("resize-y", VBool (strict_eq resize (VStr "y")))])
  = default "" (resize_class resize).
Proof.
  intros Hdef.
  destruct resize as [| |[]|n|s|r]; try reflexivity; [congruence|].
  cbn [toVal fold_left]. rewrite !strict_eq_VStr.
  unfold resize_class.
  case_bool_decide as Hx; [subst; reflexivity|].
  case_bool_decide as Hy; [subst; reflexivity|].
  reflexivity.
Qed.

Lemma get_default_defined (o : obj) (k : string) (d : value) :
  d ≠ VUndefined → get_default o k d ≠ VUndefined.
Proof. unfold get_default. destruct (get o k); congruence. Qed.

Lemma resize_class_default (o : obj) :
  resize_class (get_default o "resize" (VStr "y"))
  = resize_class (get o "resize").
Proof. unfold get_default. destruct (get o "resize"); reflexivity. Qed.

(** ** Textarea *)

(** Under a context of the declared type, the resolved [resize] is the
    caller's. *)
Lemma getResolvedFieldProps_resize (context : option obj) (props : obj) :
  FieldContext context →
  get (getResolvedFieldProps context props) "resize" = get props "resize".
Proof.
  destruct context as [C|]; [|reflexivity].
  intros HC. unfold get. rewrite getResolvedFieldProps_lookup.
  rewrite ariaProps_other by discriminate.
  destruct (props !! "resize"); [reflexivity|].
  case_decide; [discriminate|].
  by rewrite (FieldContextValue_no_resize C HC).
Qed.

(** C7: the textarea element never receives a [resize] attribute, and its
    class name is the three fixed arguments of [cx] followed by the resize
    class of the option: [resize-y] when it is unspecified or ["y"],
    [resize-xy] when [true], [resize-x] when ["x"], none when [false]. *)
Theorem Textarea_resize (props : obj) (ref : value) (context : option obj) :
  FieldContext context →
  node_props (Textarea props ref context) !! "resize" = None
  ∧ node_props (Textarea props ref context) !! "className"
    = Some (VStr
        (let base := cx [CVal (get props "className");
                         CVal (VStr "ui--form-field");
                         CVal (VStr "ui--form-field--textarea")] in
         match resize_class (get props "resize") with
         | Some c => base +:+ " " +:+ c
         | None => base
         end)).
Proof.
  intros HC. unfold Textarea, jsx_props.
  cbn [fold_left jsx_apply node_props]. split.
  - rewrite lookup_insert_ne by discriminate.
    rewrite lookup_spread, lookup_omit_eq.
    rewrite lookup_insert_ne by discriminate. apply lookup_empty.
  - rewrite lookup_insert_eq. do 2 f_equal.
    set (resize := get_default _ _ _).
    assert (Hdef : resize ≠ VUndefined)
      by (apply get_default_defined; discriminate).
    assert (Hcls : resize_class resize = resize_class (get props "resize")).
    { unfold resize. rewrite resize_class_default.
      by rewrite getResolvedFieldProps_resize. }
    unfold cx. cbn [fold_left].
    set (base := cx_step (cx_step (cx_step "" _) _)
                   (CVal (VStr "ui--form-field--textarea"))).
    assert (Hbase : base ≠ "") by (apply cx_step_literal; discriminate).
    unfold cx_step at 1. cbn [class_arg_truthy].
    rewrite (toVal_resize resize Hdef), Hcls.
    destruct (resize_class (get props "resize")) as [c|] eqn:Ec; cbn [default].
    + assert (Hc : c ≠ "").
      { intros ->. destruct (get props "resize") as [| |[]|n|s|r];
          try discriminate Ec.
        simpl in Ec. repeat case_bool_decide; discriminate Ec. }
      rewrite bool_decide_eq_false_2 by exact Hc.
      by apply sep_append_onto.
    + reflexivity.
Qed.

Lemma Textarea_resize_witness :
  FieldContext (Some ctx_f1_required)
  ∧ node_props (Textarea props_resize_true VNull (Some ctx_f1_required))
      !! "resize" = None
  ∧ node_props (Textarea props_resize_true VNull (Some ctx_f1_required))
      !! "className"
    = Some (VStr "ui--form-field ui--form-field--textarea resize-xy").
Proof.
  assert (HC : FieldContext (Some ctx_f1_required)).
  { apply (bool_decide_unpack _). vm_compute. exact I. }
  split; [exact HC|].
  exact (Textarea_resize props_resize_true VNull (Some ctx_f1_required) HC).
Defined.

(** ** Label *)

(** The [htmlFor] the label element is created with: a key of that name
    among the props is spread over the attribute computed from the
    context. *)
Lemma Label_htmlFor (props : obj) (ref : value) (ctx : option obj) :
  node_props (Label props ref ctx) !! "htmlFor"
  = Some (match props !! "htmlFor" with
          | Some v => v
          | None => or_else (opt_get ctx "id") (get props "htmlFor")
          end).
Proof.
  unfold Label, jsx_props. cbn [fold_left jsx_apply node_props].
  rewrite lookup_insert_ne by discriminate.
  rewrite lookup_spread, !lookup_omit_ne by discriminate.
  destruct (props !! "htmlFor"); [reflexivity|].
  rewrite lookup_insert_ne by discriminate. by rewrite lookup_insert_eq.
Qed.

(** C2, at the input that breaks it: under the context [{id: "f1"}] a label
    given [htmlFor="other"] is rendered with the target ["other"], not
    ["f1"]. *)
Theorem Label_explicit_htmlFor_wins :
  node_props (Label props_htmlFor_other VNull (Some ctx_f1)) !! "htmlFor"
    = Some (VStr "other")
  ∧ or_else (opt_get (Some ctx_f1) "id") (get props_htmlFor_other "htmlFor")
    = VStr "f1".
Proof.
  split; [|reflexivity].
  rewrite Label_htmlFor. reflexivity.
Qed.

(** ** FieldError *)

Lemma FieldError_null (props : obj) (ref : value) (context : option obj) :
  truthy (or_else (get props "children") (opt_get context "error")) = false →
  FieldError props ref context = NVal VNull.
Proof. intros He. unfold FieldError. cbv zeta. rewrite He. reflexivity. Qed.

Lemma FieldError_div (props : obj) (ref : value) (context : option obj) :
  truthy (or_else (get props "children") (opt_get context "error")) = true →
  ∃ attrs,
    FieldError props ref context
    = NElem "div" (spread attrs
                     (omit "children" (omit "id" (omit "className" props))))
        [NVal (or_else (get props "children") (opt_get context "error"))]
    ∧ attrs !! "role" = Some (VStr "alert")
    ∧ attrs !! "id"
      = Some (if match context with
                 | Some c => truthy (get c "id")
                 | None => false
                 end
              then VStr (to_string (opt_get context "id") +:+ "-error")
              else get props "id").
Proof.
  intros He. unfold FieldError. cbv zeta. rewrite He.
  unfold jsx_props. cbn [fold_left jsx_apply negb].
  eexists. split; [reflexivity|]. split.
  - rewrite lookup_insert_ne by discriminate. apply lookup_insert_eq.
  - apply lookup_insert_eq.
Qed.

Lemma FieldError_rendered (props : obj) (ref : value) (context : option obj) :
  FieldError props ref context ≠ NVal VNull →
  truthy (or_else (get props "children") (opt_get context "error")) = true.
Proof.
  intros Hne.
  destruct (truthy (or_else (get props "children")
                      (opt_get context "error"))) eqn:He; [reflexivity|].
  destruct Hne. by apply FieldError_null.
Qed.

(** C8: the error display shows the explicit children when they are truthy,
    else the context's error when that is truthy, and renders nothing
    ([null]) when neither is. *)
Theorem FieldError_renders_message
    (props : obj) (ref : value) (context : option obj) :
  if truthy (get props "children") then
    node_tag (FieldError props ref context) = Some "div"
    ∧ node_children (FieldError props ref context)
      = [NVal (get props "children")]
  else if truthy (opt_get context "error") then
    node_tag (FieldError props ref context) = Some "div"
    ∧ node_children (FieldError props ref context)
      = [NVal (opt_get context "error")]
  else FieldError props ref context = NVal VNull.
Proof.
  destruct (truthy (get props "children")) eqn:Hc;
    [|destruct (truthy (opt_get context "error")) eqn:He].
  - destruct (FieldError_div props ref context) as (attrs & -> & _).
    + unfold or_else. by rewrite Hc.
    + unfold or_else. rewrite Hc. split; reflexivity.
  - destruct (FieldError_div props ref context) as (attrs & -> & _).
    + unfold or_else. by rewrite Hc.
    + unfold or_else. rewrite Hc. split; reflexivity.
  - apply FieldError_null. unfold or_else. by rewrite Hc.
Qed.

(** C9, as the code has it: a rendered error display carries the role the
    caller's props name, and ["alert"] when they have no [role] key. *)
Theorem FieldError_role (props : obj) (ref : value) (context : option obj) :
  FieldError props ref context ≠ NVal VNull →
  node_props (FieldError props ref context) !! "role"
  = Some (default (VStr "alert") (props !! "role")).
Proof.
  intros Hne. apply FieldError_rendered in Hne.
  destruct (FieldError_div props ref context Hne) as (attrs & -> & Hrole & _).
  cbn [node_props]. rewrite lookup_spread, !lookup_omit_ne by discriminate.
  destruct (props !! "role"); [reflexivity | exact Hrole].
Qed.

Lemma FieldError_role_witness :
  FieldError props_message VNull None ≠ NVal VNull
  ∧ node_props (FieldError props_message VNull None) !! "role"
    = Some (VStr "alert").
Proof.
  assert (Hne : FieldError props_message VNull None ≠ NVal VNull)
    by (vm_compute; discriminate).
  split; [exact Hne|].
  exact (FieldError_role props_message VNull None Hne).
Defined.

(** C9 as stated fails: given [role="status"] next to a message, the error
    display is rendered with that role. *)
Lemma FieldError_role_not_always_alert :
  ¬ (∀ (props : obj) (ref : value) (context : option obj),
       FieldError props ref context ≠ NVal VNull →
       node_props (FieldError props ref context) !! "role"
       = Some (VStr "alert")).
Proof.
  intros H.
  specialize (H props_message_status VNull None).
  assert (Hne : FieldError props_message_status VNull None ≠ NVal VNull)
    by (vm_compute; discriminate).
  specialize (H Hne). vm_compute in H. discriminate H.
Qed.

(** C10: when the context has an error and an id (both truthy), the error
    display is rendered, its DOM id is ["{id}-error"], and that same string
    is what the resolver puts in the field's [aria-describedby]: the whole
    value, or the part after the caller's own value and a space. *)
Theorem FieldError_id_describes_field
    (C props eprops : obj) (ref : value) :
  truthy (get C "error") = true →
  truthy (get C "id") = true →
  ∃ token : string,
    token = to_string (get C "id") +:+ "-error"
    ∧ node_tag (FieldError eprops ref (Some C)) = Some "div"
    ∧ node_props (FieldError eprops ref (Some C)) !! "id" = Some (VStr token)
    ∧ (getResolvedFieldProps (Some C) props !! "aria-describedby"
         = Some (VStr token)
       ∨ getResolvedFieldProps (Some C) props !! "aria-describedby"
         = Some (VStr (to_string (get props "aria-describedby")
                       +:+ " " +:+ token))).
Proof.
  intros He Hi. eexists. split; [reflexivity|].
  assert (Hmsg : truthy (or_else (get eprops "children")
                           (opt_get (Some C) "error")) = true).
  { unfold or_else. destruct (truthy (get eprops "children")) eqn:Hc;
      [exact Hc | exact He]. }
  destruct (FieldError_div eprops ref (Some C) Hmsg) as (attrs & -> & _ & Hid).
  rewrite Hi in Hid. cbn [node_tag node_props]. split; [reflexivity|]. split.
  - rewrite lookup_spread, lookup_omit_ne by discriminate.
    rewrite lookup_omit_eq. exact Hid.
  - rewrite (resolved_describedby C props He Hi).
    destruct (nullish (get props "aria-describedby")); [left|right];
      reflexivity.
Qed.

Lemma FieldError_id_describes_field_witness :
  truthy (get ctx_f1_required "error") = true
  ∧ truthy (get ctx_f1_required "id") = true
  ∧ ∃ token : string,
      token = "f1-error"
      ∧ node_tag (FieldError ∅ VNull (Some ctx_f1_required)) = Some "div"
      ∧ node_props (FieldError ∅ VNull (Some ctx_f1_required)) !! "id"
        = Some (VStr token)
      ∧ (getResolvedFieldProps (Some ctx_f1_required) props_hint
           !! "aria-describedby" = Some (VStr token)
         ∨ getResolvedFieldProps (Some ctx_f1_required) props_hint
             !! "aria-describedby" = Some (VStr ("hint" +:+ " " +:+ token))).
Proof.
  split; [reflexivity|]. split; [reflexivity|].
  exact (FieldError_id_describes_field ctx_f1_required props_hint ∅ VNull
           eq_refl eq_refl).
Defined.

(** ** More on getResolvedFieldProps *)

Lemma FieldContextValue_absent (C : obj) (k : string) :
  FieldContextValue C →
  k ∉ ["name"; "id"; "invalid"; "disabled"; "required"; "error"] →
  C !! k = None.
Proof.
  intros HC Hk. destruct (C !! k) as [v|] eqn:E; [|reflexivity].
  destruct Hk. by apply (FieldContextValue_keys C k v).
Qed.

Lemma ariaProps_dom (C props : obj) :
  dom (ariaProps C props)
  = if truthy (get C "error") && truthy (get C "id")
    then {[ "aria-invalid"; "aria-describedby" ]}
    else (∅ : gset string).
Proof.
  unfold ariaProps.
  destruct (truthy (get C "error") && truthy (get C "id")).
  - rewrite !dom_insert_L, dom_empty_L. set_solver.
  - apply dom_empty_L.
Qed.

(** X1: an explicit prop wins over the context: whatever the context
    holds, a key of the props other than the two derived aria keys is in
    the merged object with the caller's value, also when that value is
    [undefined]. *)
Theorem explicit_prop_wins (C props : obj) (k : string) (v : value) :
  k ≠ "aria-describedby" → k ≠ "aria-invalid" →
  props !! k = Some v →
  getResolvedFieldProps (Some C) props !! k = Some v.
Proof.
  intros Hd Hi Hk. rewrite getResolvedFieldProps_lookup.
  rewrite ariaProps_other by assumption. by rewrite Hk.
Qed.

Lemma explicit_prop_wins_witness :
  props_own_id !! "id" = Some (VStr "own")
  ∧ getResolvedFieldProps (Some ctx_group) props_own_id !! "id"
    = Some (VStr "own").
Proof.
  split; [reflexivity|].
  apply (explicit_prop_wins ctx_group props_own_id "id" (VStr "own"));
    [discriminate | discriminate | reflexivity].
Defined.

(** X2: the context's error message is never forwarded: unless the caller's
    own props have a key [error], the merged object has none. *)
Theorem context_error_not_forwarded (C props : obj) :
  props !! "error" = None →
  getResolvedFieldProps (Some C) props !! "error" = None.
Proof.
  intros Hp. rewrite getResolvedFieldProps_lookup.
  rewrite ariaProps_other by discriminate. rewrite Hp.
  case_decide; [reflexivity | congruence].
Qed.

Lemma context_error_not_forwarded_witness :
  props_placeholder !! "error" = None
  ∧ ctx_group !! "error" = Some (VStr "Required")
  ∧ getResolvedFieldProps (Some ctx_group) props_placeholder !! "error"
    = None.
Proof.
  split; [reflexivity|]. split; [reflexivity|].
  apply (context_error_not_forwarded ctx_group props_placeholder).
  reflexivity.
Defined.

(** X3: what the caller leaves open is taken from the context: a key other
    than [error] and the two derived aria keys that the props do not have is
    looked up in the context. *)
Theorem context_field_forwarded (C props : obj) (k : string) :
  k ≠ "error" → k ≠ "aria-describedby" → k ≠ "aria-invalid" →
  props !! k = None →
  getResolvedFieldProps (Some C) props !! k = C !! k.
Proof.
  intros He Hd Hi Hp. rewrite getResolvedFieldProps_lookup.
  rewrite ariaProps_other by assumption. rewrite Hp.
  case_decide; [congruence | reflexivity].
Qed.

Lemma context_field_forwarded_witness :
  props_placeholder !! "name" = None
  ∧ getResolvedFieldProps (Some ctx_group) props_placeholder !! "name"
    = Some (VStr "email").
Proof.
  split; [reflexivity|].
  exact (context_field_forwarded ctx_group props_placeholder "name"
           ltac:(discriminate) ltac:(discriminate) ltac:(discriminate)
           eq_refl).
Defined.

(** X4: a derived [aria-invalid] is never [undefined], [null] or the string
    ["false"], whatever the props and the context hold. *)
Theorem aria_invalid_never_string_false (C props : obj) :
  truthy (get C "error") = true →
  truthy (get C "id") = true →
  ∃ v, getResolvedFieldProps (Some C) props !! "aria-invalid" = Some v
       ∧ v ≠ VStr "false" ∧ nullish v = false.
Proof.
  intros He Hi.
  rewrite getResolvedFieldProps_lookup, (ariaProps_invalid C props He Hi).
  eexists. split; [reflexivity|]. cbv zeta.
  set (invalid := coalesce _ _). unfold strict_eq.
  case_bool_decide as Hf; [split; [discriminate | reflexivity]|].
  unfold coalesce at 1 2.
  destruct (nullish invalid) eqn:Hn; split; try done.
Qed.

Lemma aria_invalid_never_string_false_witness :
  truthy (get ctx_f1_string_false "error") = true
  ∧ truthy (get ctx_f1_string_false "id") = true
  ∧ ∃ v, getResolvedFieldProps (Some ctx_f1_string_false) props_hint
           !! "aria-invalid" = Some v
         ∧ v ≠ VStr "false" ∧ nullish v = false.
Proof.
  split; [reflexivity|]. split; [reflexivity|].
  exact (aria_invalid_never_string_false ctx_f1_string_false props_hint
           eq_refl eq_refl).
Defined.

(** X5: the keys of the merged object are those of the props, those of the
    context except [error], and the two derived aria keys when the context
    has both an error and an id; nothing else appears. *)
Theorem getResolvedFieldProps_keys (C props : obj) :
  dom (getResolvedFieldProps (Some C) props)
  = (if truthy (get C "error") && truthy (get C "id")
     then {[ "aria-invalid"; "aria-describedby" ]} else ∅)
    ∪ dom props ∪ (dom C ∖ {[ "error" ]}).
Proof.
  unfold getResolvedFieldProps, spread, omit.
  rewrite !dom_union_L, dom_delete_L, ariaProps_dom.
  apply (assoc_L (∪)).
Qed.

(** X6: an empty context object resolves like no context at all. *)
Theorem getResolvedFieldProps_empty_context (props : obj) :
  getResolvedFieldProps (Some ∅) props = props.
Proof.
  apply map_eq. intros k. rewrite getResolvedFieldProps_lookup.
  rewrite ariaProps_off by reflexivity. rewrite !lookup_empty.
  destruct (props !! k); [reflexivity|]. by case_decide.
Qed.

(** ** The field elements *)

(** Closes [k ∉ [...]] for a literal key that is none of the context's. *)
Ltac not_a_context_key :=
  let Hin := fresh "Hin" in
  let Heq := fresh "Heq" in
  intros Hin;
  repeat (apply elem_of_cons in Hin as [Heq | Hin]; [discriminate Heq|]);
  by apply elem_of_nil in Hin.

(** A key the declared context type does not have, and the resolver does
    not derive, is resolved from the props alone. *)
Lemma resolved_foreign_key (context : option obj) (props : obj) (k : string) :
  FieldContext context →
  k ∉ ["name"; "id"; "invalid"; "disabled"; "required"; "error"] →
  k ≠ "aria-describedby" → k ≠ "aria-invalid" →
  getResolvedFieldProps context props !! k = props !! k.
Proof.
  destruct context as [C|]; [|reflexivity].
  intros HC Hk Hd Hi. rewrite getResolvedFieldProps_lookup.
  rewrite ariaProps_other by assumption.
  destruct (props !! k); [reflexivity|].
  case_decide; [reflexivity|]. by apply FieldContextValue_absent.
Qed.

Lemma Field_props_lookup
    (props : obj) (ref : value) (context : option obj) (k : string) :
  node_props (Field props ref context) !! k
  = if decide ("className" = k)
    then Some (VStr (cx [CVal (get props "className");
                         CVal (VStr "ui--form-field")]))
    else match getResolvedFieldProps context props !! k with
         | Some v => Some v
         | None => if decide ("ref" = k) then Some ref
                   else if decide ("type" = k) then Some (VStr "text")
                   else None
         end.
Proof.
  unfold Field, jsx_props. cbn [fold_left jsx_apply node_props].
  rewrite lookup_insert. case_decide; [reflexivity|].
  rewrite lookup_spread.
  destruct (getResolvedFieldProps context props !! k); [reflexivity|].
  rewrite !lookup_insert. by repeat case_decide.
Qed.

Lemma Select_props_lookup
    (props : obj) (ref : value) (context : option obj) (k : string) :
  node_props (Select props ref context) !! k
  = if decide ("className" = k)
    then Some (VStr (cx [CVal (get props "className");
                         CVal (VStr "ui--form-field");
                         CVal (VStr "ui--form-field--select")]))
    else match getResolvedFieldProps context props !! k with
         | Some v => Some v
         | None => if decide ("ref" = k) then Some ref else None
         end.
Proof.
  unfold Select, jsx_props. cbn [fold_left jsx_apply node_props].
  rewrite lookup_insert. case_decide; [reflexivity|].
  rewrite lookup_spread.
  destruct (getResolvedFieldProps context props !! k); [reflexivity|].
  rewrite lookup_insert. by case_decide.
Qed.

Lemma Textarea_props_lookup
    (props : obj) (ref : value) (context : option obj) (k : string) :
  "className" ≠ k → "resize" ≠ k →
  node_props (Textarea props ref context) !! k
  = match getResolvedFieldProps context props !! k with
    | Some v => Some v
    | None => if decide ("ref" = k) then Some ref else None
    end.
Proof.
  intros Hc Hr. unfold Textarea, jsx_props.
  cbn [fold_left jsx_apply node_props].
  rewrite lookup_insert_ne by assumption.
  rewrite lookup_spread, lookup_omit_ne by assumption.
  destruct (getResolvedFieldProps context props !! k); [reflexivity|].
  rewrite lookup_insert. by case_decide.
Qed.

(** X7: whatever the resolver produces under a key other than [className]
    is an attribute of the rendered input and select, and, for a key other
    than [resize] as well, of the rendered textarea: the defaults [type] and
    [ref] written before the spread never hide a resolved prop. *)
Theorem field_elements_forward_resolved
    (props : obj) (ref : value) (context : option obj)
    (k : string) (v : value) :
  k ≠ "className" →
  getResolvedFieldProps context props !! k = Some v →
  node_props (Field props ref context) !! k = Some v
  ∧ node_props (Select props ref context) !! k = Some v
  ∧ (k ≠ "resize" → node_props (Textarea props ref context) !! k = Some v).
Proof.
  intros Hc Hk. split; [|split].
  - rewrite Field_props_lookup, Hk. by case_decide.
  - rewrite Select_props_lookup, Hk. by case_decide.
  - intros Hr. rewrite Textarea_props_lookup by congruence. by rewrite Hk.
Qed.

Lemma field_elements_forward_resolved_witness :
  getResolvedFieldProps (Some ctx_group) props_placeholder
    !! "aria-describedby" = Some (VStr "email-error")
  ∧ node_props (Field props_placeholder VNull (Some ctx_group))
      !! "aria-describedby" = Some (VStr "email-error")
  ∧ node_props (Select props_placeholder VNull (Some ctx_group))
      !! "aria-describedby" = Some (VStr "email-error")
  ∧ ("aria-describedby" ≠ "resize" →
     node_props (Textarea props_placeholder VNull (Some ctx_group))
       !! "aria-describedby" = Some (VStr "email-error")).
Proof.
  assert (Hk : getResolvedFieldProps (Some ctx_group) props_placeholder
                 !! "aria-describedby" = Some (VStr "email-error"))
    by (vm_compute; reflexivity).
  split; [exact Hk|].
  apply (field_elements_forward_resolved props_placeholder VNull
           (Some ctx_group) "aria-describedby" (VStr "email-error"));
    [discriminate | exact Hk].
Defined.

(** X8: under a context of the declared type the input's [type] is the
    caller's when the props have that key, even holding [undefined], and
    ["text"] when they do not. *)
Theorem Field_type_default
    (props : obj) (ref : value) (context : option obj) :
  FieldContext context →
  node_props (Field props ref context) !! "type"
  = Some (default (VStr "text") (props !! "type")).
Proof.
  intros HC. rewrite Field_props_lookup.
  case_decide; [discriminate|].
  rewrite (resolved_foreign_key context props "type" HC);
    [| not_a_context_key | discriminate | discriminate].
  destruct (props !! "type"); [reflexivity|].
  by repeat case_decide.
Qed.

Lemma Field_type_default_witness :
  FieldContext (Some ctx_group)
  ∧ node_props (Field props_placeholder VNull (Some ctx_group)) !! "type"
    = Some (VStr "text").
Proof.
  assert (HC : FieldContext (Some ctx_group)).
  { apply (bool_decide_unpack _). vm_compute. exact I. }
  split; [exact HC|].
  exact (Field_type_default props_placeholder VNull (Some ctx_group) HC).
Defined.

(** ** Class names of the elements *)

Lemma append_assoc (s t u : string) : (s +:+ t) +:+ u = s +:+ t +:+ u.
Proof.
  induction s as [|a s IH]; [reflexivity|].
  change (String a ((s +:+ t) +:+ u) = String a (s +:+ t +:+ u)).
  by f_equal.
Qed.

Lemma cx_step_skip (str : string) (v : value) :
  truthy v = false → cx_step str (CVal v) = str.
Proof. intros Hv. unfold cx_step. simpl. by rewrite Hv. Qed.

Lemma cx_step_first (c : string) : c ≠ "" → cx_step "" (CVal (VStr c)) = c.
Proof.
  intros Hc. unfold cx_step. simpl.
  by rewrite !bool_decide_eq_false_2 by exact Hc.
Qed.

Lemma cx_step_next (str c : string) :
  str ≠ "" → c ≠ "" → cx_step str (CVal (VStr c)) = str +:+ " " +:+ c.
Proof.
  intros Hs Hc. unfold cx_step. simpl.
  rewrite !bool_decide_eq_false_2 by exact Hc. simpl.
  by apply sep_append_onto.
Qed.

(** X9: a non-empty [className] string of the caller comes first in the
    class name of the input, the select, the label and the provider's
    wrapper, followed by a space and the element's own classes. *)
Theorem class_names_with_user_class
    (props : obj) (ref : value) (context : option obj)
    (children : list node) (s : string) :
  get props "className" = VStr s → s ≠ "" →
  node_props (Field props ref context) !! "className"
    = Some (VStr (s +:+ " ui--form-field"))
  ∧ node_props (Select props ref context) !! "className"
    = Some (VStr (s +:+ " ui--form-field ui--form-field--select"))
  ∧ node_props (Label props ref context) !! "className"
    = Some (VStr (s +:+ " ui--form-label"))
  ∧ node_props (FieldProvider props ref children) !! "className"
    = Some (VStr (s +:+ " ui--form-field-wrapper")).
Proof.
  intros Hcls Hs.
  assert (Hs' : ∀ t, s +:+ t ≠ "") by (intros t; by apply append_nonempty_l).
  rewrite Field_props_lookup, Select_props_lookup.
  unfold Label, FieldProvider, jsx_props.
  cbn [fold_left jsx_apply node_props].
  rewrite !lookup_insert_eq, !decide_True by reflexivity. rewrite Hcls.
  unfold cx. cbn [fold_left]. rewrite (cx_step_first s Hs).
  rewrite !(cx_step_next s) by (exact Hs || discriminate).
  rewrite cx_step_next by (apply Hs' || discriminate).
  rewrite append_assoc. done.
Qed.

Lemma class_names_with_user_class_witness :
  get props_class "className" = VStr "wide"
  ∧ "wide" ≠ ""
  ∧ node_props (Field props_class VNull None) !! "className"
    = Some (VStr "wide ui--form-field")
  ∧ node_props (Select props_class VNull None) !! "className"
    = Some (VStr "wide ui--form-field ui--form-field--select")
  ∧ node_props (Label props_class VNull None) !! "className"
    = Some (VStr "wide ui--form-label")
  ∧ node_props (FieldProvider props_class VNull []) !! "className"
    = Some (VStr "wide ui--form-field-wrapper").
Proof.
  split; [reflexivity|]. split; [discriminate|].
  exact (class_names_with_user_class props_class VNull None [] "wide"
           eq_refl ltac:(discriminate)).
Defined.

(** X10: without a usable [className] of the caller (absent, [undefined],
    [null], [false] or the empty string) each element carries exactly its
    own classes, with no leading space. *)
Theorem class_names_default
    (props : obj) (ref : value) (context : option obj)
    (children : list node) :
  truthy (get props "className") = false →
  node_props (Field props ref context) !! "className"
    = Some (VStr "ui--form-field")
  ∧ node_props (Select props ref context) !! "className"
    = Some (VStr "ui--form-field ui--form-field--select")
  ∧ node_props (Label props ref context) !! "className"
    = Some (VStr "ui--form-label")
  ∧ node_props (FieldProvider props ref children) !! "className"
    = Some (VStr "ui--form-field-wrapper").
Proof.
  intros Hcls.
  rewrite Field_props_lookup, Select_props_lookup.
  unfold Label, FieldProvider, jsx_props.
  cbn [fold_left jsx_apply node_props].
  rewrite !lookup_insert_eq, !decide_True by reflexivity.
  unfold cx. cbn [fold_left]. rewrite !(cx_step_skip "" _ Hcls).
  done.
Qed.

Lemma class_names_default_witness :
  truthy (get props_placeholder "className") = false
  ∧ node_props (Field props_placeholder VNull None) !! "className"
    = Some (VStr "ui--form-field")
  ∧ node_props (Select props_placeholder VNull None) !! "className"
    = Some (VStr "ui--form-field ui--form-field--select")
  ∧ node_props (Label props_placeholder VNull None) !! "className"
    = Some (VStr "ui--form-label")
  ∧ node_props (FieldProvider props_placeholder VNull []) !! "className"
    = Some (VStr "ui--form-field-wrapper").
Proof.
  split; [reflexivity|].
  exact (class_names_default props_placeholder VNull None [] eq_refl).
Defined.

(** ** More on Label *)

Lemma Label_props_lookup
    (props : obj) (ref : value) (ctx : option obj) (k : string) :
  "className" ≠ k →
  node_props (Label props ref ctx) !! k
  = match omit "children" (omit "className" props) !! k with
    | Some v => Some v
    | None =>
        if decide ("ref" = k) then Some ref
        else if decide ("htmlFor" = k)
             then Some (or_else (opt_get ctx "id") (get props "htmlFor"))
             else None
    end.
Proof.
  intros Hc. unfold Label, jsx_props. cbn [fold_left jsx_apply node_props].
  rewrite lookup_insert_ne by assumption. rewrite lookup_spread.
  destruct (omit "children" (omit "className" props) !! k); [reflexivity|].
  rewrite !lookup_insert. by repeat case_decide.
Qed.

(** X11: a label whose props have no [htmlFor] key targets the context's id
    when that is truthy; with no provider, no id or an empty id its
    [htmlFor] is [undefined]. *)
Theorem Label_htmlFor_from_context
    (props : obj) (ref : value) (ctx : option obj) :
  props !! "htmlFor" = None →
  node_props (Label props ref ctx) !! "htmlFor"
  = Some (if truthy (opt_get ctx "id") then opt_get ctx "id"
          else VUndefined).
Proof.
  intros Hp. rewrite Label_props_lookup by discriminate.
  rewrite !lookup_omit_ne by discriminate. rewrite Hp.
  rewrite decide_False by discriminate. rewrite decide_True by reflexivity.
  unfold or_else. by rewrite (get_absent props "htmlFor" Hp).
Qed.

Lemma Label_htmlFor_from_context_witness :
  props_class !! "htmlFor" = None
  ∧ node_props (Label props_class VNull (Some ctx_group)) !! "htmlFor"
    = Some (VStr "email")
  ∧ node_props (Label props_class VNull None) !! "htmlFor"
    = Some VUndefined.
Proof.
  split; [reflexivity|]. split.
  - exact (Label_htmlFor_from_context props_class VNull (Some ctx_group)
             eq_refl).
  - exact (Label_htmlFor_from_context props_class VNull None eq_refl).
Defined.

(** X12: every prop of a label other than [className] and [children] is an
    attribute of the rendered element with the caller's value; this
    includes [ref] and [htmlFor], which are written before the spread. *)
Theorem Label_forwards_props
    (props : obj) (ref : value) (ctx : option obj) (k : string) (v : value) :
  k ≠ "className" → k ≠ "children" →
  props !! k = Some v →
  node_props (Label props ref ctx) !! k = Some v.
Proof.
  intros Hc Hch Hk. rewrite Label_props_lookup by congruence.
  rewrite !lookup_omit_ne by congruence. by rewrite Hk.
Qed.

Lemma Label_forwards_props_witness :
  props_own_id !! "id" = Some (VStr "own")
  ∧ node_props (Label props_own_id VNull (Some ctx_group)) !! "id"
    = Some (VStr "own").
Proof.
  split; [reflexivity|].
  exact (Label_forwards_props props_own_id VNull (Some ctx_group) "id"
           (VStr "own") ltac:(discriminate) ltac:(discriminate) eq_refl).
Defined.

(** ** More on FieldError *)

(** X13: a rendered error display takes its id from the context when the
    context's id is truthy, ["{id}-error"], and an explicit [id] prop is
    then dropped; otherwise it has the explicit [id], [undefined] when
    there is none. *)
Theorem FieldError_id (props : obj) (ref : value) (context : option obj) :
  FieldError props ref context ≠ NVal VNull →
  node_props (FieldError props ref context) !! "id"
  = Some (if truthy (opt_get context "id")
          then VStr (to_string (opt_get context "id") +:+ "-error")
          else get props "id").
Proof.
  intros Hne. apply FieldError_rendered in Hne.
  destruct (FieldError_div props ref context Hne) as (attrs & -> & _ & Hid).
  cbn [node_props]. rewrite lookup_spread.
  rewrite lookup_omit_ne by discriminate. rewrite lookup_omit_eq.
  rewrite Hid. by destruct context.
Qed.

Lemma FieldError_id_witness :
  FieldError props_error_alert VNull (Some ctx_group) ≠ NVal VNull
  ∧ node_props (FieldError props_error_alert VNull (Some ctx_group)) !! "id"
    = Some (VStr "email-error")
  ∧ FieldError props_error_alert VNull None ≠ NVal VNull
  ∧ node_props (FieldError props_error_alert VNull None) !! "id"
    = Some (VStr "own").
Proof.
  assert (H1 : FieldError props_error_alert VNull (Some ctx_group)
               ≠ NVal VNull) by (vm_compute; discriminate).
  assert (H2 : FieldError props_error_alert VNull None ≠ NVal VNull)
    by (vm_compute; discriminate).
  split; [exact H1|]. split.
  - exact (FieldError_id props_error_alert VNull (Some ctx_group) H1).
  - split; [exact H2|].
    exact (FieldError_id props_error_alert VNull None H2).
Defined.

(** X14: every prop of a rendered error display other than [className],
    [id] and [children] is an attribute of the div with the caller's value
    (the [alert] prop of [FieldErrorProps] among them), overriding [ref] and
    [role] written before the spread. *)
Theorem FieldError_forwards_props
    (props : obj) (ref : value) (context : option obj)
    (k : string) (v : value) :
  FieldError props ref context ≠ NVal VNull →
  k ≠ "className" → k ≠ "id" → k ≠ "children" →
  props !! k = Some v →
  node_props (FieldError props ref context) !! k = Some v.
Proof.
  intros Hne Hc Hi Hch Hk. apply FieldError_rendered in Hne.
  destruct (FieldError_div props ref context Hne) as (attrs & -> & _).
  cbn [node_props]. rewrite lookup_spread.
  rewrite !lookup_omit_ne by congruence. by rewrite Hk.
Qed.

Lemma FieldError_forwards_props_witness :
  FieldError props_error_alert VNull (Some ctx_group) ≠ NVal VNull
  ∧ props_error_alert !! "alert" = Some (VBool true)
  ∧ node_props (FieldError props_error_alert VNull (Some ctx_group))
      !! "alert" = Some (VBool true).
Proof.
  assert (H1 : FieldError props_error_alert VNull (Some ctx_group)
               ≠ NVal VNull) by (vm_compute; discriminate).
  split; [exact H1|]. split; [reflexivity|].
  exact (FieldError_forwards_props props_error_alert VNull (Some ctx_group)
           "alert" (VBool true) H1 ltac:(discriminate) ltac:(discriminate)
           ltac:(discriminate) eq_refl).
Defined.

(** ** Elements of one field group *)

Lemma truthy_lookup (o : obj) (k : string) :
  truthy (get o k) = true → o !! k = Some (get o k).
Proof. unfold get. by destruct (o !! k). Qed.

Lemma resolved_context_id (C props : obj) :
  truthy (get C "id") = true → props !! "id" = None →
  getResolvedFieldProps (Some C) props !! "id" = Some (get C "id").
Proof.
  intros Hi Hp. rewrite getResolvedFieldProps_lookup.
  rewrite ariaProps_other by discriminate. rewrite Hp.
  rewrite decide_False by discriminate. by apply truthy_lookup.
Qed.

Lemma Label_targets_context_id (C props : obj) (ref : value) :
  truthy (get C "id") = true → props !! "htmlFor" = None →
  node_props (Label props ref (Some C)) !! "htmlFor" = Some (get C "id").
Proof.
  intros Hi Hp. rewrite Label_props_lookup by discriminate.
  rewrite !lookup_omit_ne by discriminate. rewrite Hp.
  rewrite decide_False by discriminate. rewrite decide_True by reflexivity.
  unfold or_else, opt_get. by rewrite Hi.
Qed.

(** X15: under one context with a truthy id, a label without [htmlFor] of
    its own points at the id that an input, a select and a textarea without
    an [id] of their own are rendered with. *)
Theorem label_targets_field
    (C lprops fprops : obj) (lref fref : value) :
  truthy (get C "id") = true →
  lprops !! "htmlFor" = None →
  fprops !! "id" = None →
  ∃ target,
    node_props (Label lprops lref (Some C)) !! "htmlFor" = Some target
    ∧ node_props (Field fprops fref (Some C)) !! "id" = Some target
    ∧ node_props (Select fprops fref (Some C)) !! "id" = Some target
    ∧ node_props (Textarea fprops fref (Some C)) !! "id" = Some target
    ∧ target = get C "id".
Proof.
  intros Hi Hl Hf. exists (get C "id").
  pose proof (resolved_context_id C fprops Hi Hf) as Hid.
  split; [by apply Label_targets_context_id|].
  split; [rewrite Field_props_lookup, Hid; by case_decide|].
  split; [rewrite Select_props_lookup, Hid; by case_decide|].
  split; [|reflexivity].
  rewrite Textarea_props_lookup by discriminate. by rewrite Hid.
Qed.

Lemma label_targets_field_witness :
  truthy (get ctx_group "id") = true
  ∧ props_class !! "htmlFor" = None
  ∧ props_placeholder !! "id" = None
  ∧ ∃ target,
      node_props (Label props_class VNull (Some ctx_group)) !! "htmlFor"
        = Some target
      ∧ node_props (Field props_placeholder VNull (Some ctx_group)) !! "id"
        = Some target
      ∧ node_props (Select props_placeholder VNull (Some ctx_group)) !! "id"
        = Some target
      ∧ node_props (Textarea props_placeholder VNull (Some ctx_group))
          !! "id" = Some target
      ∧ target = get ctx_group "id".
Proof.
  split; [reflexivity|]. split; [reflexivity|]. split; [reflexivity|].
  exact (label_targets_field ctx_group props_class props_placeholder
           VNull VNull eq_refl eq_refl eq_refl).
Defined.

(** ** FieldProvider *)

Lemma FieldProvider_ctx_lookup (props : obj) (k : string) :
  FieldProvider_ctx props !! k
  = if decide (k = "children" ∨ k = "className") then None else props !! k.
Proof.
  unfold FieldProvider_ctx. rewrite !lookup_omit.
  destruct (decide (k = "children" ∨ k = "className")) as [[-> | ->] | Hn].
  - by rewrite decide_True.
  - rewrite decide_False by discriminate. by rewrite decide_True.
  - rewrite !decide_False; [reflexivity | |]; intros <-; apply Hn; auto.
Qed.

Lemma FieldProvider_ctx_get (props : obj) (k : string) :
  k ≠ "children" → k ≠ "className" →
  get (FieldProvider_ctx props) k = get props k.
Proof.
  intros Hch Hc. unfold get. rewrite FieldProvider_ctx_lookup.
  rewrite decide_False; [reflexivity|]. intros [? | ?]; congruence.
Qed.



(** X17: a provider given a truthy id and error wires the group it wraps:
    the label (no [htmlFor] of its own) targets the input, the input (no
    [id] and no [aria-describedby] of its own) has the provider's id and is
    described by the error display, whose id is ["{id}-error"]. *)
Theorem FieldProvider_wires_group
    (pprops lprops fprops eprops : obj) (ref lref fref eref : value) :
  truthy (get pprops "id") = true →
  truthy (get pprops "error") = true →
  lprops !! "htmlFor" = None →
  fprops !! "id" = None →
  nullish (get fprops "aria-describedby") = true →
  ∃ label input error,
    node_children
      (FieldProvider_render pprops ref
         (fun ctx => [Label lprops lref ctx; Field fprops fref ctx;
                      FieldError eprops eref ctx]))
    = [label; input; error]
    ∧ node_tag label = Some "label"
    ∧ node_tag input = Some "input"
    ∧ node_tag error = Some "div"
    ∧ node_props label !! "htmlFor" = Some (get pprops "id")
    ∧ node_props input !! "id" = Some (get pprops "id")
    ∧ node_props error !! "id"
      = Some (VStr (to_string (get pprops "id") +:+ "-error"))
    ∧ node_props input !! "aria-describedby" = node_props error !! "id".
Proof.
  intros Hi He Hl Hf Hd.
  set (C := FieldProvider_ctx pprops).
  assert (HCi : get C "id" = get pprops "id")
    by (apply FieldProvider_ctx_get; discriminate).
  assert (HCe : get C "error" = get pprops "error")
    by (apply FieldProvider_ctx_get; discriminate).
  assert (Hi' : truthy (get C "id") = true) by (by rewrite HCi).
  assert (He' : truthy (get C "error") = true) by (by rewrite HCe).
  assert (Hmsg : truthy (or_else (get eprops "children")
                           (opt_get (Some C) "error")) = true).
  { unfold or_else. destruct (truthy (get eprops "children")) eqn:Hc;
      [exact Hc | exact He']. }
  destruct (FieldError_div eprops eref (Some C) Hmsg)
    as (attrs & Herr & _ & Hid).
  rewrite Hi' in Hid. cbn [opt_get] in Hid. rewrite HCi in Hid.
  assert (Heid : node_props (FieldError eprops eref (Some C)) !! "id"
                 = Some (VStr (to_string (get pprops "id") +:+ "-error"))).
  { rewrite Herr. cbn [node_props]. rewrite lookup_spread.
    rewrite lookup_omit_ne by discriminate. by rewrite lookup_omit_eq. }
  exists (Label lprops lref (Some C)), (Field fprops fref (Some C)),
    (FieldError eprops eref (Some C)).
  split; [reflexivity|]. split; [reflexivity|]. split; [reflexivity|].
  split; [by rewrite Herr|].
  split; [rewrite <- HCi; by apply Label_targets_context_id|].
  split.
  { rewrite Field_props_lookup, (resolved_context_id C fprops Hi' Hf), HCi.
    by case_decide. }
  split; [exact Heid|].
  rewrite Heid, Field_props_lookup.
  rewrite (resolved_describedby C fprops He' Hi'), Hd, HCi.
  by case_decide.
Qed.

Lemma FieldProvider_wires_group_witness :
  truthy (get provider_props "id") = true
  ∧ truthy (get provider_props "error") = true
  ∧ props_class !! "htmlFor" = None
  ∧ props_placeholder !! "id" = None
  ∧ nullish (get props_placeholder "aria-describedby") = true
  ∧ ∃ label input error,
      node_children
        (FieldProvider_render provider_props VNull
           (fun ctx => [Label props_class VNull ctx;
                        Field props_placeholder VNull ctx;
                        FieldError ∅ VNull ctx]))
      = [label; input; error]
      ∧ node_tag label = Some "label"
      ∧ node_tag input = Some "input"
      ∧ node_tag error = Some "div"
      ∧ node_props label !! "htmlFor" = Some (get provider_props "id")
      ∧ node_props input !! "id" = Some (get provider_props "id")
      ∧ node_props error !! "id"
        = Some (VStr (to_string (get provider_props "id") +:+ "-error"))
      ∧ node_props input !! "aria-describedby" = node_props error !! "id".
Proof.
  split; [reflexivity|]. split; [reflexivity|]. split; [reflexivity|].
  split; [reflexivity|]. split; [reflexivity|].
  exact (FieldProvider_wires_group provider_props props_class
           props_placeholder ∅ VNull VNull VNull VNull
           eq_refl eq_refl eq_refl eq_refl eq_refl).
Defined.

(** ** The forwarded ref *)

(** X18: the ref handed to a component is the [ref] of the element it
    renders, for the input, select, textarea, label, error display and
    provider wrapper, as long as the props have no key [ref] of their own
    and the context is of the declared type. *)
Theorem forwarded_ref_attached
    (props : obj) (ref : value) (context : option obj)
    (children : list node) :
  FieldContext context →
  props !! "ref" = None →
  node_props (Field props ref context) !! "ref" = Some ref
  ∧ node_props (Select props ref context) !! "ref" = Some ref
  ∧ node_props (Textarea props ref context) !! "ref" = Some ref
  ∧ node_props (Label props ref context) !! "ref" = Some ref
  ∧ node_props (FieldProvider props ref children) !! "ref" = Some ref
  ∧ (FieldError props ref context ≠ NVal VNull →
     node_props (FieldError props ref context) !! "ref" = Some ref).
Proof.
  intros HC Hp.
  assert (Hres : getResolvedFieldProps context props !! "ref" = None).
  { rewrite (resolved_foreign_key context props "ref" HC);
      [exact Hp | not_a_context_key | discriminate | discriminate]. }
  split; [rewrite Field_props_lookup, Hres; by repeat case_decide|].
  split; [rewrite Select_props_lookup, Hres; by repeat case_decide|].
  split.
  { rewrite Textarea_props_lookup by discriminate. rewrite Hres.
    by case_decide. }
  split.
  { rewrite Label_props_lookup by discriminate.
    rewrite !lookup_omit_ne by discriminate. rewrite Hp. by case_decide. }
  split.
  { unfold FieldProvider, jsx_props. cbn [fold_left jsx_apply node_props].
    rewrite lookup_insert_ne by discriminate. apply lookup_insert_eq. }
  intros Hne. unfold FieldError. cbv zeta.
  rewrite (FieldError_rendered props ref context Hne).
  unfold jsx_props. cbn [fold_left jsx_apply node_props negb].
  rewrite lookup_spread, !lookup_omit_ne by discriminate. rewrite Hp.
  rewrite !lookup_insert_ne by discriminate. apply lookup_insert_eq.
Qed.

Lemma forwarded_ref_attached_witness :
  FieldContext (Some ctx_group)
  ∧ props_placeholder !! "ref" = None
  ∧ node_props (Field props_placeholder (VObject 7) (Some ctx_group))
      !! "ref" = Some (VObject 7)
  ∧ node_props (Select props_placeholder (VObject 7) (Some ctx_group))
      !! "ref" = Some (VObject 7)
  ∧ node_props (Textarea props_placeholder (VObject 7) (Some ctx_group))
      !! "ref" = Some (VObject 7)
  ∧ node_props (Label props_placeholder (VObject 7) (Some ctx_group))
      !! "ref" = Some (VObject 7)
  ∧ node_props (FieldProvider props_placeholder (VObject 7) [])
      !! "ref" = Some (VObject 7)
  ∧ (FieldError props_placeholder (VObject 7) (Some ctx_group) ≠ NVal VNull →
     node_props (FieldError props_placeholder (VObject 7) (Some ctx_group))
       !! "ref" = Some (VObject 7)).
Proof.
  assert (HC : FieldContext (Some ctx_group)).
  { apply (bool_decide_unpack _). vm_compute. exact I. }
  split; [exact HC|]. split; [reflexivity|].
  exact (forwarded_ref_attached props_placeholder (VObject 7)
           (Some ctx_group) [] HC eq_refl).
Defined.
